(** * The security review API handlers of api/security_review_api.py

    A shallow embedding of [SecurityReviewAPI.do_get] and
    [SecurityReviewAPI.do_post].  Both handlers are glue between the web
    framework, the datastore, the permission checker and the origin trials
    client, so the embedding is a small exception-and-state monad over a
    [World] that holds the datastore and a log of every interaction with a
    collaborator, in the order in which the handler performs them. *)

From Stdlib Require Import Ascii String ZArith.
From stdpp Require Import gmap strings list fin_maps pretty.

Open Scope string_scope.
Open Scope list_scope.
Open Scope Z_scope.

(** ** Python values *)

Module Py.

(** The values a request can carry: JSON [null], booleans, integers and
    text.  [bool] is a subclass of [int] in Python, which [isinstance_int]
    and [int_value] below account for. *)
Inductive PyVal : Type :=
| PyNone
| PyBool (b : bool)
| PyInt (z : Z)
| PyStr (s : string).

(** The exception classes the handlers raise, catch or let through.
    [RequestException] stands for [requests.exceptions.RequestException]
    and its subclasses; [HTTPException] is what [abort] raises. *)
Inductive PyExc : Type :=
| HTTPException (status : Z) (description : string)
| RequestException
| KeyError
| ValueError
| TypeError.

(** Truthiness, as tested by [if x:] and [if not x:]. *)
Definition truthy (v : PyVal) : bool :=
  match v with
  | PyNone => false
  | PyBool b => b
  | PyInt z => negb (z =? 0)
  | PyStr s => negb (String.eqb s "")
  end.

(** [v is None]. *)
Definition is_none (v : PyVal) : bool :=
  match v with
  | PyNone => true
  | _ => false
  end.

(** [isinstance(v, int)]. *)
Definition isinstance_int (v : PyVal) : bool :=
  match v with
  | PyBool _ | PyInt _ => true
  | PyNone | PyStr _ => false
  end.

(** The integer an [int] instance denotes ([True] is 1, [False] is 0);
    [None] for values that are not [int] instances. *)
Definition int_value (v : PyVal) : option Z :=
  match v with
  | PyInt z => Some z
  | PyBool b => Some (if b then 1 else 0)
  | PyNone | PyStr _ => None
  end.

(** [str(v)], as used by f-strings. *)
Definition str (v : PyVal) : string :=
  match v with
  | PyNone => "None"
  | PyBool b => if b then "True" else "False"
  | PyInt z => pretty z
  | PyStr s => s
  end.

(** *** [int(text)]

    The built-in on text in base 10, as CPython 3.11 computes it
    ([PyLong_FromUnicodeObject], then [PyLong_FromString]): every
    character is first read as a blank, a decimal digit, or itself; blanks
    around the number are skipped, one sign is allowed, and the digits may
    be grouped by single underscores.  A number of more digits than the
    interpreter's limit is refused. *)

(** **** Text as code points

    A [string] holds text in UTF-8, which is how Rocq reads a string
    literal; Python's [str] is the sequence of code points it encodes.
    Surrogates decode like any other three-byte sequence, since a [str]
    may hold them.  Bytes that encode no sequence of code points stand for
    no text. *)

Definition byte (b : ascii) : Z := Z.of_N (N_of_ascii b).

(** The six payload bits of a continuation byte. *)
Definition continuation (b : ascii) : option Z :=
  let n := byte b in
  if (128 <=? n) && (n <? 192) then Some (n - 128) else None.

Fixpoint utf8_decode (bs : list ascii) : option (list Z) :=
  match bs with
  | [] => Some []
  | b :: bs1 =>
      let n := byte b in
      if n <? 128 then cons n <$> utf8_decode bs1
      else if n <? 192 then None
      else if n <? 224 then
        match bs1 with
        | b1 :: bs2 =>
            match continuation b1 with
            | Some x1 =>
                let cp := (n - 192) * 64 + x1 in
                if cp <? 128 then None else cons cp <$> utf8_decode bs2
            | None => None
            end
        | _ => None
        end
      else if n <? 240 then
        match bs1 with
        | b1 :: b2 :: bs3 =>
            match continuation b1, continuation b2 with
            | Some x1, Some x2 =>
                let cp := ((n - 224) * 64 + x1) * 64 + x2 in
                if cp <? 2048 then None else cons cp <$> utf8_decode bs3
            | _, _ => None
            end
        | _ => None
        end
      else if n <? 248 then
        match bs1 with
        | b1 :: b2 :: b3 :: bs4 =>
            match continuation b1, continuation b2, continuation b3 with
            | Some x1, Some x2, Some x3 =>
                let cp := (((n - 240) * 64 + x1) * 64 + x2) * 64 + x3 in
                if (cp <? 65536) || (1114111 <? cp) then None
                else cons cp <$> utf8_decode bs4
            | _, _, _ => None
            end
        | _ => None
        end
      else None
  end.

(** **** The character tables

    Below 127 the interpreter uses its own ASCII tables, where the blanks
    are tab, line feed, vertical tab, form feed, carriage return and
    space.  From 127 on it asks the Unicode database; the two tables below
    are those of Unicode 14.0, the database of CPython 3.11. *)

(** The white space from 127 on, as inclusive ranges. *)
Definition unicode_spaces : list (Z * Z) :=
  [ (133, 133); (160, 160); (5760, 5760); (8192, 8202); (8232, 8233);
    (8239, 8239); (8287, 8287); (12288, 12288) ].

(** The digit zero of every script: the decimal digits from 127 on come
    in runs of ten, zero to nine. *)
Definition unicode_zeros : list Z :=
  [ 1632; 1776; 1984; 2406; 2534; 2662; 2790; 2918; 3046; 3174; 3302;
    3430; 3558; 3664; 3792; 3872; 4160; 4240; 6112; 6160; 6470; 6608;
    6784; 6800; 6992; 7088; 7232; 7248; 42528; 43216; 43264; 43472;
    43504; 43600; 44016; 65296; 66720; 68912; 69734; 69872; 69942; 70096;
    70384; 70736; 70864; 71248; 71360; 71472; 71904; 72016; 72784; 73040;
    73120; 92768; 92864; 93008; 120782; 120792; 120802; 120812; 120822;
    123200; 123632; 125264; 130032 ].

Definition is_space (cp : Z) : bool :=
  if cp <? 127 then ((9 <=? cp) && (cp <=? 13)) || (cp =? 32)
  else existsb (fun r => (r.1 <=? cp) && (cp <=? r.2)) unicode_spaces.

Definition digit_of (cp : Z) : option Z :=
  if cp <? 127
  then if (48 <=? cp) && (cp <=? 57) then Some (cp - 48) else None
  else (fun zero => cp - zero)
         <$> find (fun zero => (zero <=? cp) && (cp <? zero + 10))
               unicode_zeros.

(** What a character is to [int].  The test for a blank comes first, as
    in the interpreter. *)
Inductive Token : Type :=
| Blank
| Digit (d : Z)
| Sign (negative : bool)
| Underscore
| Other.

Definition classify (cp : Z) : Token :=
  if is_space cp then Blank
  else match digit_of cp with
       | Some d => Digit d
       | None =>
           if cp =? 43 then Sign false
           else if cp =? 45 then Sign true
           else if cp =? 95 then Underscore
           else Other
       end.

(** **** The number *)

Fixpoint lstrip (ts : list Token) : list Token :=
  match ts with
  | Blank :: ts' => lstrip ts'
  | _ => ts
  end.

Definition strip (ts : list Token) : list Token :=
  reverse (lstrip (reverse (lstrip ts))).

(** The value and the number of digits.  [after_digit] records whether
    the previous character was a digit: an underscore is accepted only
    there, and the text must end there. *)
Fixpoint parse_digits (acc count : Z) (after_digit : bool) (ts : list Token)
  : option (Z * Z) :=
  match ts with
  | [] => if after_digit then Some (acc, count) else None
  | Digit d :: ts' => parse_digits (10 * acc + d) (count + 1) true ts'
  | Underscore :: ts' =>
      if after_digit then parse_digits acc count false ts' else None
  | _ => None
  end.

Definition parse_signed (ts : list Token) : option (Z * Z) :=
  match ts with
  | Sign negative :: ts' =>
      (fun r => (if negative then - r.1 else r.1, r.2))
        <$> parse_digits 0 0 false ts'
  | _ => parse_digits 0 0 false ts
  end.

(** [sys.get_int_max_str_digits()], at its default. *)
Definition int_max_str_digits : Z := 4300.

Definition int_of_str (s : string) : option Z :=
  match utf8_decode (list_ascii_of_string s) with
  | Some cps =>
      match parse_signed (strip (classify <$> cps)) with
      | Some (v, count) =>
          if int_max_str_digits <? count then None else Some v
      | None => None
      end
  | None => None
  end.

(** **** What [int] accepts, said without the parser *)

(** [Numeral ts v k]: the tokens [ts] are [k] decimal digits of value
    [v], any two neighbours separated by at most one underscore. *)
Inductive Numeral : list Token → Z → Z → Prop :=
| numeral_digit d : Numeral [Digit d] d 1
| numeral_next ts v k d :
    Numeral ts v k → Numeral (ts ++ [Digit d]) (10 * v + d) (k + 1)
| numeral_group ts v k d :
    Numeral ts v k →
    Numeral (ts ++ [Underscore; Digit d]) (10 * v + d) (k + 1).

Definition sign_tokens (sign : option bool) : list Token :=
  match sign with
  | Some negative => [Sign negative]
  | None => []
  end.

Definition signed (sign : option bool) (v : Z) : Z :=
  match sign with
  | Some true => - v
  | _ => v
  end.

(** Blanks, an optional sign, a numeral within the limit, blanks. *)
Inductive IntLiteral : list Token → Z → Prop :=
| int_literal (before after : nat) sign ts v k :
    Numeral ts v k →
    k ≤ int_max_str_digits →
    IntLiteral
      (replicate before Blank ++ sign_tokens sign ++ ts
       ++ replicate after Blank)
      (signed sign v).

(** The text [s] is a literal of the integer [n]. *)
Definition denotes (s : string) (n : Z) : Prop :=
  ∃ cps,
    utf8_decode (list_ascii_of_string s) = Some cps
    ∧ IntLiteral (classify <$> cps) n.

(** [int(v)]: the integer, or the exception the built-in raises. *)
Definition int (v : PyVal) : Z + PyExc :=
  match v with
  | PyNone => inr TypeError
  | PyBool b => inl (if b then 1 else 0)
  | PyInt z => inl z
  | PyStr s =>
      match int_of_str s with
      | Some z => inl z
      | None => inr ValueError
      end
  end.

End Py.

Import Py.

(** ** The world a request runs in *)

(** A [FeatureEntry] entity, with the properties the handlers read or write.
    [key_id] is the id of the entity's own datastore key, under which
    [put] writes it back. *)
Record FeatureEntry : Type := {
  key_id : Z;
  continuity_id : option Z;
  launch_issue_id : option Z
}.

(** A [Gate] entity; the handlers only test that it exists. *)
Record Gate : Type := { gate_key_id : Z }.

(** What [handler.redirect] hands back when the user must sign in. *)
Record Redirect : Type := { location : string }.

(** Every interaction with a collaborator that a handler can perform. *)
Inductive Event : Type :=
| FeatureGet (id : Z)
| PermissionCheck (feature : Z)
| GateGet (id : Z)
| VerifyContinuityIssue (continuity : Z)
| CreateLaunchIssue (feature gate : Z) (continuity : option Z)
| FeaturePut (f : FeatureEntry).

(** The datastore and the log of interactions, oldest first. *)
Record World : Type := {
  features : gmap Z FeatureEntry;
  gates : gset Z;
  log : list Event
}.

Definition record (e : Event) (w : World) : World :=
  {| features := features w; gates := gates w; log := log w ++ [e] |}.

(** Every entity is stored under its own key. *)
Definition datastore_wf (w : World) : Prop :=
  ∀ k f, features w !! k = Some f → key_id f = k.

(** ** Handler computations: state plus Python exceptions *)

Definition M (A : Type) : Type := World → (A + PyExc) * World.

Definition ret {A} (a : A) : M A := fun w => (inl a, w).

Definition raise {A} (e : PyExc) : M A := fun w => (inr e, w).

Definition bind {A B} (m : M A) (k : A → M B) : M B :=
  fun w =>
    match m w with
    | (inl a, w') => k a w'
    | (inr e, w') => (inr e, w')
    end.

(** [try: m except ...: h]: [h e] is the body of the clause that matches
    [e], or [None] when no clause does and [e] propagates. *)
Definition try_except {A} (m : M A) (h : PyExc → option (M A)) : M A :=
  fun w =>
    match m w with
    | (inl a, w') => (inl a, w')
    | (inr e, w') =>
        match h e with
        | Some k => k w'
        | None => (inr e, w')
        end
    end.

(** [if c: m], for a statement [m]. *)
Definition when (c : bool) (m : M unit) : M unit :=
  if c then m else ret tt.

(** The outcome of a call that returns or raises, made part of the run and
    noted in the log. *)
Definition call {A} (e : Event) (r : A + PyExc) : M A :=
  fun w => (r, record e w).

(** The handlers are written with stdpp's monad notation:
    [x ← m; k] runs [m] and, unless it raised, continues with [k]. *)
#[global] Instance M_ret : MRet M := @ret.
#[global] Instance M_bind : MBind M := fun A B k m => bind m k.

(** Modelled from the spec: [basehandlers.APIHandler.abort] is not part of
    the sources at hand.  It is the framework's flow control, "raising to
    short-circuit a handler", and "every abort carries a human-readable
    message surfaced to the caller". *)
Definition abort {A} (status : Z) (msg : string) : M A :=
  raise (HTTPException status msg).

(** Modelled from the spec: the framework's dispatch is not part of the
    sources at hand.  A handler that returns answers 200, an abort answers
    with its own status, and any other exception is an internal error. *)
Definition http_status {A} (r : A + PyExc) : Z :=
  match r with
  | inl _ => 200
  | inr (HTTPException status _) => status
  | inr _ => 500
  end.

(** A collaborator declared to take an [int], applied to the value [v]. *)
Definition with_int {A} (v : PyVal) (k : Z → M A) : M A :=
  match int_value v with
  | Some n => k n
  | None => raise TypeError
  end.

(** [o is not None] for an optional value; it is also the truth value of an
    optional object, such as a redirect, that is truthy whenever present. *)
Definition is_not_none {A} (o : option A) : bool :=
  match o with Some _ => true | None => false end.

(** An optional integer as a Python value. *)
Definition of_opt_int (o : option Z) : PyVal :=
  match o with Some z => PyInt z | None => PyNone end.

(** ** Request and response records *)

Record CreateLaunchIssueRequest : Type := {
  feature_id : PyVal;
  gate_id : PyVal
}.

Record SuccessMessage : Type := { message : string }.

(** ** The handlers *)

Section Handlers.

(** The response schema of the verification endpoint. *)
Context {VerifyContinuityIssueResponse : Type}.

(** The collaborators of one request: the origin trials client, the
    permission check for the signed-in user, and the generated response
    model.  The client's calls return or raise. *)
Record Collaborators : Type := {
  verify_continuity_issue : Z → gmap string PyVal + PyExc;
  create_launch_issue :
    Z → Z → option Z → (option Z * option string) + PyExc;
  validate_feature_edit_permission : Z → option Redirect;
  from_dict : gmap string PyVal → VerifyContinuityIssueResponse
}.

Variable env : Collaborators.

(** [FeatureEntry.get_by_id] and [Gate.get_by_id]. *)
Definition FeatureEntry_get_by_id (id : PyVal) : M (option FeatureEntry) :=
  with_int id (fun n w => (inl (features w !! n), record (FeatureGet n) w)).

Definition Gate_get_by_id (id : PyVal) : M (option Gate) :=
  with_int id (fun n w =>
    (inl (if decide (n ∈ gates w) then Some {| gate_key_id := n |} else None),
     record (GateGet n) w)).

(** [feature.put()]. *)
Definition put (feature : FeatureEntry) : M unit :=
  fun w =>
    (inl tt,
     record (FeaturePut feature)
       {| features := <[key_id feature := feature]> (features w);
          gates := gates w;
          log := log w |}).

(** [feature.launch_issue_id = issue_id]. *)
Definition set_launch_issue_id (issue_id : option Z) (feature : FeatureEntry)
  : FeatureEntry :=
  {| key_id := key_id feature;
     continuity_id := continuity_id feature;
     launch_issue_id := issue_id |}.

(** [SecurityReviewAPI.do_get]: verify a continuity issue id.  [kwargs]
    holds the parameters the route hands to the handler. *)
Definition do_get (kwargs : gmap string PyVal)
  : M VerifyContinuityIssueResponse :=
  let continuity_id_arg := default PyNone (kwargs !! "continuity_id") in
  when (negb (truthy continuity_id_arg))
    (abort 400 "No continuity ID specified.");;
  continuity_id ←
    try_except
      (match Py.int continuity_id_arg with
       | inl n => ret n
       | inr e => raise e
       end)
      (fun e =>
         match e with
         | ValueError => Some (abort 400 "Invalid continuity ID.")
         | _ => None
         end);
  resp ←
    try_except
      (call (VerifyContinuityIssue continuity_id)
         (verify_continuity_issue env continuity_id))
      (fun e =>
         match e with
         | RequestException =>
             Some (abort 500 "Error obtaining origin trial data from API")
         | KeyError =>
             Some (abort 500 "Malformed response from origin trials API")
         | _ => None
         end);
  ret (from_dict env resp).

(** [SecurityReviewAPI.do_post]: create a security review issue.  [body]
    is the request's JSON as [CreateLaunchIssueRequest.from_dict] read
    it. *)
Definition do_post (body : CreateLaunchIssueRequest) : M SuccessMessage :=
  (* Check that feature ID is provided. *)
  when (is_none (feature_id body))
    (abort 400 "No feature specified.");;
  when (negb (isinstance_int (feature_id body)))
    (abort 400 "Invalid feature ID.");;
  found ← FeatureEntry_get_by_id (feature_id body);
  feature ←
    match found with
    | None =>
        abort 404 ("Feature " +:+ str (feature_id body) +:+ " not found")
    | Some feature => ret feature
    end;
  when (is_not_none (launch_issue_id feature))
    (abort 400 "Feature already has a security review issue.");;
  (* Validate the user has edit permissions and redirect if needed. *)
  redirect_resp ←
    with_int (feature_id body) (fun n =>
      call (PermissionCheck n) (inl (validate_feature_edit_permission env n)));
  when (is_not_none redirect_resp)
    (abort 403 "User does not have permission to edit this feature.");;
  (* Check that gate_id is provided. *)
  when (is_none (gate_id body))
    (abort 400 "No gate specified.");;
  when (negb (isinstance_int (gate_id body)))
    (abort 400 "Invalid gate ID.");;
  gate ← Gate_get_by_id (gate_id body);
  when (negb (is_not_none gate))
    (abort 404 ("Gate " +:+ str (gate_id body) +:+ " not found"));;
  '(issue_id, failed_reason) ←
    try_except
      (with_int (feature_id body) (fun f =>
       with_int (gate_id body) (fun g =>
         call (CreateLaunchIssue f g (continuity_id feature))
           (create_launch_issue env f g (continuity_id feature)))))
      (fun e =>
         match e with
         | RequestException =>
             Some (abort 500 "Error obtaining origin trial data from API")
         | KeyError =>
             Some (abort 500 "Malformed response from origin trials API")
         | _ => None
         end);
  when (is_not_none issue_id)
    (put (set_launch_issue_id issue_id feature));;
  match failed_reason with
  | Some reason => when (truthy (PyStr reason)) (abort 500 reason)
  | None => ret tt
  end;;
  ret {| message :=
           "Security review issue " +:+ str (of_opt_int issue_id)
           +:+ " created" |}.

End Handlers.

Arguments Collaborators : clear implicits.

(** ** The specification's reading of a request *)

Section Reading.

Context {VerifyContinuityIssueResponse : Type}.
Variable env : Collaborators VerifyContinuityIssueResponse.

(** *** The verification endpoint *)

(** Why a [continuity_id] parameter is refused, if it is: it is absent
    or empty (for an integer: it is 0), or it is text that [int] does not
    accept. *)
Inductive IdProblem : Type := Absent | Unparsable.

Definition continuity_id_problem (kwargs : gmap string PyVal)
  : option IdProblem :=
  match kwargs !! "continuity_id" with
  | None | Some PyNone => Some Absent
  | Some (PyStr s) =>
      if String.eqb s "" then Some Absent
      else match int_of_str s with
           | Some _ => None
           | None => Some Unparsable
           end
  | Some (PyBool b) => if b then None else Some Absent
  | Some (PyInt z) => if z =? 0 then Some Absent else None
  end.

Definition problem_message (p : IdProblem) : string :=
  match p with
  | Absent => "No continuity ID specified."
  | Unparsable => "Invalid continuity ID."
  end.

(** The integer the handler converts the [continuity_id] parameter to,
    when it gets that far: what the text parses to, or the integer itself
    unless it is 0. *)
Definition parsed_continuity_id (kwargs : gmap string PyVal) : option Z :=
  match kwargs !! "continuity_id" with
  | Some (PyStr s) => int_of_str s
  | Some (PyInt z) => if z =? 0 then None else Some z
  | Some (PyBool b) => if b then Some 1 else None
  | Some PyNone | None => None
  end.


(** The two failures of the origin trials client that the specification
    names, a transport error and a malformed response, with the message
    each one answers with. *)
Definition upstream_error_message (e : PyExc) : option string :=
  match e with
  | RequestException => Some "Error obtaining origin trial data from API"
  | KeyError => Some "Malformed response from origin trials API"
  | _ => None
  end.

(** *** The creation endpoint *)

(** One row of the validation sequence: whether the check fails on this
    request, the status and message it then answers with, and the
    collaborators that are consulted to decide it. *)
Record Check : Type := {
  fails : bool;
  status : Z;
  msg : string;
  consults : list Event
}.

(** Checks 1 to 8 of the specification, in its order. *)
Definition validation_sequence (body : CreateLaunchIssueRequest) (w : World)
  : list Check :=
  let fid := int_value (feature_id body) in
  let gid := int_value (gate_id body) in
  let feature := fid ≫= (fun n => features w !! n) in
  [ {| fails := is_none (feature_id body);
       status := 400; msg := "No feature specified.";
       consults := [] |};
    {| fails := negb (isinstance_int (feature_id body));
       status := 400; msg := "Invalid feature ID.";
       consults := [] |};
    {| fails := negb (is_not_none feature);
       status := 404;
       msg := "Feature " +:+ str (feature_id body) +:+ " not found";
       consults := from_option (fun n => [FeatureGet n]) [] fid |};
    {| fails := is_not_none (feature ≫= launch_issue_id);
       status := 400;
       msg := "Feature already has a security review issue.";
       consults := [] |};
    {| fails := is_not_none (fid ≫= validate_feature_edit_permission env);
       status := 403;
       msg := "User does not have permission to edit this feature.";
       consults := from_option (fun n => [PermissionCheck n]) [] fid |};
    {| fails := is_none (gate_id body);
       status := 400; msg := "No gate specified.";
       consults := [] |};
    {| fails := negb (isinstance_int (gate_id body));
       status := 400; msg := "Invalid gate ID.";
       consults := [] |};
    {| fails :=
         from_option (fun n => negb (bool_decide (n ∈ gates w))) true gid;
       status := 404;
       msg := "Gate " +:+ str (gate_id body) +:+ " not found";
       consults := from_option (fun n => [GateGet n]) [] gid |} ].

(** The first check of a sequence that fails, with the checks that
    passed before it. *)
Fixpoint first_failure (checks : list Check)
  : option (list Check * Check) :=
  match checks with
  | [] => None
  | c :: rest =>
      if fails c then Some ([], c)
      else (fun r => (c :: r.1, r.2)) <$> first_failure rest
  end.

(** A request that passes all eight checks: [fid] and [gid] are the ids
    it names and [feature] is the entity stored under [fid]. *)
Definition passes_validation (body : CreateLaunchIssueRequest) (w : World)
  (fid gid : Z) (feature : FeatureEntry) : Prop :=
  int_value (feature_id body) = Some fid ∧
  features w !! fid = Some feature ∧
  launch_issue_id feature = None ∧
  validate_feature_edit_permission env fid = None ∧
  int_value (gate_id body) = Some gid ∧
  gid ∈ gates w.

(** The world once such a request has been validated and the origin
    trials client has been called: the datastore is as it was. *)
Definition after_upstream_call (w : World) (fid gid : Z)
  (feature : FeatureEntry) : World :=
  {| features := features w;
     gates := gates w;
     log := log w ++ [FeatureGet fid; PermissionCheck fid; GateGet gid;
                      CreateLaunchIssue fid gid (continuity_id feature)] |}.

(** The world once, in addition, the issue id has been written. *)
Definition after_put (w : World) (fid gid : Z) (feature : FeatureEntry)
  (issue_id : Z) : World :=
  let feature' := set_launch_issue_id (Some issue_id) feature in
  {| features := <[key_id feature := feature']> (features w);
     gates := gates w;
     log := log w ++ [FeatureGet fid; PermissionCheck fid; GateGet gid;
                      CreateLaunchIssue fid gid (continuity_id feature);
                      FeaturePut feature'] |}.

End Reading.

(** ** A concrete request, for trying the handlers out *)

Module Scenario.

Definition feature42 : FeatureEntry :=
  {| key_id := 42; continuity_id := Some 9001; launch_issue_id := None |}.

Definition feature43 : FeatureEntry :=
  {| key_id := 43; continuity_id := None; launch_issue_id := Some 77 |}.

Definition world : World :=
  {| features := {[ 42 := feature42; 43 := feature43 ]};
     gates := {[ 7 ]};
     log := [] |}.

Definition body : CreateLaunchIssueRequest :=
  {| feature_id := PyInt 42; gate_id := PyInt 7 |}.

(** The client answers every call with [created]; the user may edit
    exactly when [may_edit] holds. *)
Definition collaborators (may_edit : bool)
  (verified : gmap string PyVal + PyExc)
  (created : (option Z * option string) + PyExc)
  : Collaborators (gmap string PyVal) :=
  {| verify_continuity_issue := fun _ => verified;
     create_launch_issue := fun _ _ _ => created;
     validate_feature_edit_permission :=
       fun _ => if may_edit then None else Some {| location := "/login" |};
     from_dict := fun d => d |}.

Definition granted := collaborators true (inl ∅).
Definition denied := collaborators false (inl ∅).

End Scenario.

(** ** Requests, one after another *)

Section Serving.

Context {VerifyContinuityIssueResponse : Type}.

(** One request to either endpoint, with the collaborators as they are
    while it is served: who is signed in and what the origin trials client
    answers can differ from one request to the next. *)
Inductive Request : Type :=
| Get (env : Collaborators VerifyContinuityIssueResponse)
    (kwargs : gmap string PyVal)
| Post (env : Collaborators VerifyContinuityIssueResponse)
    (body : CreateLaunchIssueRequest).

(** The world a request leaves behind, whatever it answers. *)
Definition serve (w : World) (r : Request) : World :=
  match r with
  | Get env kwargs => (do_get env kwargs w).2
  | Post env body => (do_post env body w).2
  end.

(** The requests of [rs] served in turn, on the same datastore. *)
Definition serve_all (rs : list Request) (w : World) : World :=
  foldl serve w rs.

End Serving.

(** Unfolds a handler down to the state it threads, one statement at a
    time. *)
Ltac step_handler :=
  unfold do_post, do_get, FeatureEntry_get_by_id, Gate_get_by_id, put,
    with_int, mbind, M_bind, bind, when, call, try_except, abort, raise,
    ret, record;
  simpl.

(** * Properties *)

(** ** The built-in conversions *)

Example int_of_str_plain : int_of_str "123" = Some 123.
Proof. reflexivity. Qed.
Example int_of_str_padded : int_of_str "  -42 " = Some (-42).
Proof. reflexivity. Qed.
Example int_of_str_grouped : int_of_str "+1_000" = Some 1000.
Proof. reflexivity. Qed.
Example int_of_str_abc : int_of_str "abc" = None.
Proof. reflexivity. Qed.
Example int_of_str_empty : int_of_str "" = None.
Proof. reflexivity. Qed.
Example int_of_str_blank : int_of_str "   " = None.
Proof. reflexivity. Qed.
Example int_of_str_bad_group : int_of_str "1__0" = None.
Proof. reflexivity. Qed.
Example int_of_str_trailing_group : int_of_str "1_" = None.
Proof. reflexivity. Qed.
Example int_of_str_zero : int_of_str "0" = Some 0.
Proof. reflexivity. Qed.

(** Blanks are what the interpreter takes for blanks: the separators 28
    to 31 are none, the no-break space (bytes 194 160) is one. *)
Example int_of_str_file_separator :
  int_of_str (String "028" "5") = None.
Proof. reflexivity. Qed.
Example int_of_str_no_break_space :
  int_of_str (String "194" (String "160" "5")) = Some 5.
Proof. reflexivity. Qed.
Example int_of_str_ideographic_space : int_of_str "7　" = Some 7.
Proof. reflexivity. Qed.

(** Digits are the decimal digits of every script. *)
Example int_of_str_arabic_indic : int_of_str "٣" = Some 3.
Proof. reflexivity. Qed.
Example int_of_str_mixed_scripts : int_of_str "-1٢_３" = Some (-123).
Proof. reflexivity. Qed.
Example int_of_str_superscript : int_of_str "²" = None.
Proof. reflexivity. Qed.

(** Bytes that are no UTF-8 are no text. *)
Example int_of_str_stray_byte : int_of_str (String "160" "5") = None.
Proof. reflexivity. Qed.

(** The limit counts digits, leading zeros too, and nothing else. *)
Example int_of_str_at_limit :
  int_of_str (string_of_list_ascii (replicate 4300 "0"%char)) = Some 0.
Proof. vm_compute. reflexivity. Qed.
Example int_of_str_over_limit :
  int_of_str (string_of_list_ascii (replicate 4301 "0"%char)) = None.
Proof. vm_compute. reflexivity. Qed.

Example scenario_success :
  do_post (Scenario.granted (inl (Some 555, None))) Scenario.body Scenario.world
  = (inl {| message := "Security review issue 555 created" |},
     after_put Scenario.world 42 7 Scenario.feature42 555).
Proof. vm_compute. reflexivity. Qed.

Lemma int_of_str_nonempty s n : int_of_str s = Some n → String.eqb s "" = false.
Proof. destruct s; [discriminate | reflexivity]. Qed.

Lemma truthy_text s : s ≠ "" → truthy (PyStr s) = true.
Proof.
  intros Hs. simpl. destruct (String.eqb_spec s ""); [contradiction | reflexivity].
Qed.

Lemma int_value_Some v n :
  int_value v = Some n → is_none v = false ∧ isinstance_int v = true.
Proof. destruct v; simpl; intros; try discriminate; auto. Qed.

(** ** [int] on text: the parser and the grammar agree *)

Lemma lstrip_blanks (a : nat) ts :
  lstrip (replicate a Blank ++ ts) = lstrip ts.
Proof. induction a as [|a IH]; [reflexivity | exact IH]. Qed.

(** What [lstrip] removes are blanks, and what it leaves does not start
    with one. *)
Lemma lstrip_split ts :
  ∃ a : nat,
    ts = replicate a Blank ++ lstrip ts
    ∧ lstrip (lstrip ts) = lstrip ts.
Proof.
  induction ts as [|t ts (a & Hts & Hl)]; [by exists 0%nat|].
  destruct t;
    try (by exists 0%nat).
  exists (S a). simpl. split; [by f_equal | exact Hl].
Qed.

Lemma strip_split ts :
  ∃ a b : nat, ts = replicate a Blank ++ strip ts ++ replicate b Blank.
Proof.
  destruct (lstrip_split ts) as (a & Ha & _).
  destruct (lstrip_split (reverse (lstrip ts))) as (b & Hb & _).
  exists a, b. unfold strip. rewrite Ha at 1. f_equal.
  apply (inj reverse).
  rewrite reverse_app, reverse_involutive, reverse_replicate. exact Hb.
Qed.

Lemma numeral_first ts v k :
  Numeral ts v k → ∃ d ts', ts = Digit d :: ts'.
Proof.
  induction 1 as [d|ts v k d _ (d0 & ts' & ->)|ts v k d _ (d0 & ts' & ->)];
    by eexists _, _.
Qed.

Lemma numeral_last ts v k :
  Numeral ts v k → ∃ ts' d, ts = ts' ++ [Digit d].
Proof.
  destruct 1 as [d|ts v k d _|ts v k d _].
  - by exists [], d.
  - by exists ts, d.
  - exists (ts ++ [Underscore]), d. by rewrite <- app_assoc.
Qed.

Lemma numeral_count ts v k : Numeral ts v k → 1 ≤ k.
Proof. induction 1; lia. Qed.

(** The body of a literal, its sign and its numeral, is what [strip]
    leaves of it. *)
Lemma strip_literal (a b : nat) sign ts v k :
  Numeral ts v k →
  strip (replicate a Blank ++ sign_tokens sign ++ ts ++ replicate b Blank)
  = sign_tokens sign ++ ts.
Proof.
  intros Hn.
  destruct (numeral_first _ _ _ Hn) as (d & ts1 & Hfirst).
  destruct (numeral_last _ _ _ Hn) as (ts2 & d' & Hlast).
  assert (∀ rest, lstrip (sign_tokens sign ++ ts ++ rest)
                  = sign_tokens sign ++ ts ++ rest) as Hhead.
  { intros rest. rewrite Hfirst. by destruct sign. }
  unfold strip. rewrite lstrip_blanks, Hhead.
  rewrite (app_assoc (sign_tokens sign)), reverse_app, reverse_replicate.
  rewrite lstrip_blanks, Hlast, (app_assoc (sign_tokens sign)).
  rewrite reverse_app. change (reverse [Digit d']) with [Digit d'].
  cbn [app lstrip].
  by rewrite reverse_cons, reverse_involutive.
Qed.

(** The parser reads a numeral as its value and its number of digits. *)
Lemma parse_digits_numeral ts v k :
  Numeral ts v k →
  ∀ rest, parse_digits 0 0 false (ts ++ rest) = parse_digits v k true rest.
Proof.
  induction 1 as [d|ts v k d _ IH|ts v k d _ IH]; intros rest.
  - reflexivity.
  - by rewrite <- app_assoc, IH.
  - by rewrite <- app_assoc, IH.
Qed.

(** What the parser has read so far: a numeral, or a numeral and an
    underscore, or nothing yet. *)
Definition parsed_so_far (pre : list Token) (acc count : Z)
  (after_digit : bool) : Prop :=
  if after_digit then Numeral pre acc count
  else (pre = [] ∧ acc = 0 ∧ count = 0)
       ∨ ∃ pre', pre = pre' ++ [Underscore] ∧ Numeral pre' acc count.

Lemma parse_digits_sound ts :
  ∀ pre acc count after_digit v k,
    parsed_so_far pre acc count after_digit →
    parse_digits acc count after_digit ts = Some (v, k) →
    Numeral (pre ++ ts) v k.
Proof.
  induction ts as [|t ts IH]; intros pre acc count b v k Hpre Hparse.
  - destruct b; [|discriminate]. injection Hparse as <- <-.
    by rewrite app_nil_r.
  - destruct t as [|d|negative| |]; try discriminate; simpl in Hparse.
    + rewrite (cons_middle (Digit d)), app_assoc.
      refine (IH (pre ++ [Digit d]) _ _ true _ _ _ Hparse).
      destruct b; simpl in *.
      * by constructor.
      * destruct Hpre as [(-> & -> & ->)|(pre' & -> & Hpre)].
        -- apply numeral_digit.
        -- rewrite <- app_assoc. by apply numeral_group.
    + destruct b; [|discriminate].
      rewrite (cons_middle Underscore), app_assoc.
      refine (IH (pre ++ [Underscore]) _ _ false _ _ _ Hparse).
      right. by exists pre.
Qed.

Lemma parse_signed_sound ts v k :
  parse_signed ts = Some (v, k) →
  ∃ sign ts' v',
    ts = sign_tokens sign ++ ts' ∧ Numeral ts' v' k ∧ v = signed sign v'.
Proof.
  assert (parsed_so_far [] 0 0 false) as Hstart by by left.
  destruct ts as [|t ts']; [discriminate|].
  destruct t as [|d|negative| |];
    [discriminate| | |discriminate|discriminate].
  - intros Hparse. exists None, (Digit d :: ts'), v.
    split; [done|]. split; [|done].
    exact (parse_digits_sound _ [] _ _ _ _ _ Hstart Hparse).
  - unfold parse_signed.
    destruct (parse_digits 0 0 false ts') as [[v' k']|] eqn:Hparse;
      [|discriminate].
    intros [= <- <-]. exists (Some negative), ts', v'.
    split; [done|]. split; [|by destruct negative].
    exact (parse_digits_sound _ [] _ _ _ _ _ Hstart Hparse).
Qed.

(** [int] accepts exactly the literals, each with the integer it
    denotes. *)
Lemma int_of_str_denotes s n : int_of_str s = Some n ↔ denotes s n.
Proof.
  unfold int_of_str, denotes. split.
  - destruct (utf8_decode (list_ascii_of_string s)) as [cps|];
      [|discriminate].
    destruct (parse_signed (strip (classify <$> cps))) as [[v k]|] eqn:Hp;
      [|discriminate].
    destruct (Z.ltb_spec int_max_str_digits k) as [|Hk]; [discriminate|].
    intros [= <-]. exists cps. split; [done|].
    apply parse_signed_sound in Hp as (sign & ts & v' & Hs & Hn & ->).
    destruct (strip_split (classify <$> cps)) as (a & b & ->).
    rewrite Hs, <- app_assoc. by apply (int_literal a b sign ts v' k).
  - intros (cps & -> & Hlit).
    destruct Hlit as [a b sign ts v k Hn Hk].
    rewrite (strip_literal a b sign ts v k Hn).
    assert (parse_signed (sign_tokens sign ++ ts)
            = Some (signed sign v, k)) as ->.
    { destruct (numeral_first _ _ _ Hn) as (d & ts1 & Hfirst).
      pose proof (parse_digits_numeral _ _ _ Hn []) as Hp.
      rewrite app_nil_r in Hp.
      destruct sign as [negative|]; simpl.
      - rewrite Hp. by destruct negative.
      - rewrite Hfirst in *. exact Hp. }
    destruct (Z.ltb_spec int_max_str_digits k); [lia | done].
Qed.

(** ** [int] reads back what [str] writes *)

Lemma pretty_N_char_digit d :
  (d < 10)%N →
  byte (pretty_N_char d) = 48 + Z.of_N d
  ∧ classify (48 + Z.of_N d) = Digit (Z.of_N d).
Proof.
  intros Hd.
  assert (d = 0 ∨ d = 1 ∨ d = 2 ∨ d = 3 ∨ d = 4 ∨ d = 5 ∨ d = 6 ∨ d = 7
          ∨ d = 8 ∨ d = 9)%N as Hcases by lia.
  repeat (destruct Hcases as [->|Hcases]; [by vm_compute|]).
  subst d. by vm_compute.
Qed.

Lemma utf8_decode_ascii b bs :
  byte b < 128 → utf8_decode (b :: bs) = cons (byte b) <$> utf8_decode bs.
Proof.
  intros Hb. cbn [utf8_decode]. cbv zeta.
  by destruct (Z.ltb_spec (byte b) 128); [|lia].
Qed.

(** The digits that [pretty_N_go] puts in front of [s] are a numeral of
    the number they were written for, with no digit to spare. *)
Lemma pretty_N_go_numeral x :
  (0 < x)%N →
  ∀ s cps,
    utf8_decode (list_ascii_of_string s) = Some cps →
    ∃ ds k,
      utf8_decode (list_ascii_of_string (pretty_N_go x s)) = Some (ds ++ cps)
      ∧ Numeral (classify <$> ds) (Z.of_N x) k
      ∧ 10 ^ (k - 1) ≤ Z.of_N x.
Proof.
  induction (N.lt_wf_0 x) as [x _ IH]. intros Hx s cps Hs.
  rewrite pretty_N_go_step by done.
  assert (x `mod` 10 < 10)%N as Hmod by by apply N.mod_lt.
  destruct (pretty_N_char_digit _ Hmod) as [Hbyte Hclass].
  assert (Z.of_N x = 10 * Z.of_N (x `div` 10) + Z.of_N (x `mod` 10))
    as Hdm by (rewrite (N.div_mod x 10) at 1 by done; lia).
  assert (utf8_decode
            (list_ascii_of_string
               (String (pretty_N_char (x `mod` 10)) s))
          = Some ((48 + Z.of_N (x `mod` 10)) :: cps)) as Hs'.
  { cbn [list_ascii_of_string].
    rewrite utf8_decode_ascii by (rewrite Hbyte; lia).
    by rewrite Hs, Hbyte. }
  destruct (decide (x `div` 10 = 0)%N) as [Hq|Hq].
  - rewrite Hq, pretty_N_go_0 in *.
    exists [48 + Z.of_N (x `mod` 10)], 1. split; [exact Hs'|].
    cbn [fmap list_fmap]. rewrite Hclass.
    replace (Z.of_N x) with (Z.of_N (x `mod` 10)) by lia.
    split; [constructor | simpl; lia].
  - destruct (IH (x `div` 10)%N) with (1 := N.div_lt x 10 Hx eq_refl)
      (3 := Hs') as (ds & k & Hdec & Hnum & Hk); [by apply N.neq_0_lt_0|].
    exists (ds ++ [48 + Z.of_N (x `mod` 10)]), (k + 1).
    split; [by rewrite <- app_assoc|].
    rewrite fmap_app. cbn [fmap list_fmap]. rewrite Hclass, Hdm.
    split; [by constructor|].
    pose proof (numeral_count _ _ _ Hnum).
    replace (k + 1 - 1) with (Z.succ (k - 1)) by lia.
    rewrite Z.pow_succ_r by lia.
    pose proof (N2Z.is_nonneg (x `mod` 10)) as Hr.
    revert Hk Hr. generalize (10 ^ (k - 1)) (Z.of_N (x `div` 10))
      (Z.of_N (x `mod` 10)). lia.
Qed.

(** The decimal rendering of an integer, with its sign, parses back to
    that integer, as long as the digits are within the limit. *)
Lemma int_of_str_pretty (z : Z) :
  Z.abs z < 10 ^ int_max_str_digits → int_of_str (pretty z) = Some z.
Proof.
  intros Hz. apply int_of_str_denotes.
  assert (∀ p : positive,
            Z.pos p < 10 ^ int_max_str_digits →
            ∃ ds k,
              utf8_decode (list_ascii_of_string (pretty (N.pos p)))
              = Some ds
              ∧ Numeral (classify <$> ds) (Z.pos p) k
              ∧ k ≤ int_max_str_digits) as Hpos.
  { intros p Hp. unfold pretty, pretty_N. rewrite decide_False by done.
    destruct (pretty_N_go_numeral (N.pos p) eq_refl "" [] eq_refl)
      as (ds & k & Hdec & Hnum & Hk).
    rewrite app_nil_r in Hdec. exists ds, k. repeat split; [done..|].
    change (Z.of_N (N.pos p)) with (Z.pos p) in Hk.
    assert (10 ^ (k - 1) < 10 ^ int_max_str_digits) as Hlt by lia.
    apply Z.pow_lt_mono_r_iff in Hlt; [lia | lia | done]. }
  destruct z as [|p|p].
  - exists [48]. split; [done|].
    apply (int_literal 0 0 None [Digit 0] 0 1); [constructor | done].
  - destruct (Hpos p Hz) as (ds & k & Hdec & Hnum & Hk).
    exists ds. split; [exact Hdec|].
    pose proof (int_literal 0 0 None _ _ _ Hnum Hk) as Hlit.
    simpl in Hlit. by rewrite app_nil_r in Hlit.
  - destruct (Hpos p Hz) as (ds & k & Hdec & Hnum & Hk).
    exists (45 :: ds). split.
    + change (pretty (Z.neg p)) with ("-" +:+ pretty (N.pos p)).
      change (list_ascii_of_string ("-" +:+ ?s))
        with ("-"%char :: list_ascii_of_string s).
      rewrite utf8_decode_ascii by done. by rewrite Hdec.
    + pose proof (int_literal 0 0 (Some true) _ _ _ Hnum Hk) as Hlit.
      simpl in Hlit. by rewrite app_nil_r in Hlit.
Qed.

(** ** Running the handlers *)

Section Properties.

Context {VerifyContinuityIssueResponse : Type}.
Variable env : Collaborators VerifyContinuityIssueResponse.

Implicit Types (w : World) (body : CreateLaunchIssueRequest).
Implicit Types (kwargs : gmap string PyVal) (feature : FeatureEntry).

(** A request that passes validation is settled by the answer of the
    origin trials client alone. *)
Lemma do_post_validated body w fid gid feature :
  passes_validation env body w fid gid feature →
  do_post env body w =
    match create_launch_issue env fid gid (continuity_id feature) with
    | inl (issue_id, failed_reason) =>
        let w' :=
          match issue_id with
          | Some i => after_put w fid gid feature i
          | None => after_upstream_call w fid gid feature
          end in
        let created :=
          {| message := "Security review issue "
                        +:+ str (of_opt_int issue_id) +:+ " created" |} in
        match failed_reason with
        | Some reason =>
            if truthy (PyStr reason)
            then (inr (HTTPException 500 reason), w')
            else (inl created, w')
        | None => (inl created, w')
        end
    | inr e =>
        (inr (match upstream_error_message e with
              | Some m => HTTPException 500 m
              | None => e
              end),
         after_upstream_call w fid gid feature)
    end.
Proof.
  intros (Hf & Hl & Hn & Hp & Hg & Hin).
  destruct (int_value_Some _ _ Hf) as [F1 F2].
  destruct (int_value_Some _ _ Hg) as [G1 G2].
  step_handler. rewrite F1, F2, G1, G2, Hf, Hg. simpl.
  rewrite Hl. simpl. rewrite Hn, Hp. simpl.
  rewrite decide_True by done. simpl.
  unfold after_put, after_upstream_call.
  destruct (create_launch_issue env fid gid (continuity_id feature))
    as [[[i|] [reason|]]|e]; simpl; rewrite <- ?app_assoc; simpl;
    try destruct (negb _); try reflexivity.
  destruct e; reflexivity.
Qed.

(** A request whose [continuity_id] is converted to an integer is
    settled by the answer of the origin trials client alone. *)
Lemma do_get_parsed kwargs w n :
  parsed_continuity_id kwargs = Some n →
  do_get env kwargs w =
    (match verify_continuity_issue env n with
     | inl resp => inl (from_dict env resp)
     | inr e =>
         inr (match upstream_error_message e with
              | Some m => HTTPException 500 m
              | None => e
              end)
     end,
     record (VerifyContinuityIssue n) w).
Proof.
  unfold parsed_continuity_id. intros Hn.
  destruct (kwargs !! "continuity_id") as [[|b|z|s]|] eqn:Harg;
    try discriminate.
  - destruct b; [|discriminate]. injection Hn as <-.
    step_handler. rewrite Harg. simpl.
    destruct (verify_continuity_issue env 1) as [resp|[]]; reflexivity.
  - destruct (z =? 0) eqn:Hz; [discriminate|]. injection Hn as <-.
    step_handler. rewrite Harg. simpl. rewrite Hz. simpl.
    destruct (verify_continuity_issue env z) as [resp|[]]; reflexivity.
  - step_handler. rewrite Harg. simpl.
    rewrite (int_of_str_nonempty _ _ Hn), Hn. simpl.
    destruct (verify_continuity_issue env n) as [resp|[]]; reflexivity.
Qed.


(** Every request is either refused for its parameter or converted to an
    integer. *)
Lemma continuity_id_settled kwargs :
  continuity_id_problem kwargs = None
  ↔ ∃ n, parsed_continuity_id kwargs = Some n.
Proof.
  unfold continuity_id_problem, parsed_continuity_id.
  destruct (kwargs !! "continuity_id") as [[|b|z|s]|].
  - split; [discriminate | by intros [? ?]].
  - destruct b; split; try discriminate; try (by intros [? ?]).
    by exists 1.
  - destruct (z =? 0); split; try discriminate; try (by intros [? ?]).
    by exists z.
  - destruct (String.eqb_spec s "") as [->|Hs].
    + split; [discriminate | by intros [? ?]].
    + destruct (int_of_str s) as [n|]; split; try discriminate.
      * by exists n.
      * done.
      * by intros [? ?].
  - split; [discriminate | by intros [? ?]].
Qed.

(** Text is refused as unparsable exactly when it is not empty and is a
    literal of no integer. *)
Lemma unparsable_denotes_nothing kwargs :
  continuity_id_problem kwargs = Some Unparsable
  ↔ ∃ s, kwargs !! "continuity_id" = Some (PyStr s)
         ∧ s ≠ "" ∧ ∀ n, ¬ denotes s n.
Proof.
  unfold continuity_id_problem.
  destruct (kwargs !! "continuity_id") as [[|b|z|s]|];
    try (split; [discriminate | by intros (? & ? & _)]).
  - destruct b; split; try discriminate; by intros (? & ? & _).
  - destruct (z =? 0); split; try discriminate; by intros (? & ? & _).
  - destruct (String.eqb_spec s "") as [->|Hs].
    + split; [discriminate|]. by intros (? & [= <-] & ? & _).
    + destruct (int_of_str s) as [m|] eqn:Hm; split.
      * discriminate.
      * intros (? & [= <-] & _ & Hno).
        by destruct (Hno m); apply int_of_str_denotes.
      * intros _. exists s. repeat split; [done|].
        intros n Hn. apply int_of_str_denotes in Hn. congruence.
      * done.
Qed.

(** ** The verification endpoint *)

(** C6: a request whose [continuity_id] is absent, empty (for an
    integer: 0), or text that [int] does not accept is answered with 400,
    with the message "No continuity ID specified." when absent or empty
    and "Invalid continuity ID." when unparsable; the world is left as it
    was, so nothing is added to the log and the origin trials client is
    never called. *)
Theorem do_get_refuses_bad_id kwargs w p :
  continuity_id_problem kwargs = Some p →
  do_get env kwargs w = (inr (HTTPException 400 (problem_message p)), w)
  ∧ http_status (do_get env kwargs w).1 = 400
  ∧ log (do_get env kwargs w).2 = log w.
Proof.
  intros Hp.
  assert (do_get env kwargs w
          = (inr (HTTPException 400 (problem_message p)), w)) as ->.
  { unfold continuity_id_problem in Hp. step_handler.
    destruct (kwargs !! "continuity_id") as [[|b|z|s]|]; simpl;
      try (by inversion Hp).
    - destruct b; [discriminate | by inversion Hp].
    - destruct (z =? 0); [by inversion Hp | discriminate].
    - destruct (String.eqb s ""); simpl; [by inversion Hp|].
      destruct (int_of_str s); [discriminate|]. by inversion Hp. }
  auto.
Qed.

(** C7: when the [continuity_id] parses and the verification call raises
    a transport error, the answer is 500 "Error obtaining origin trial
    data from API"; when it raises a key error, the answer is 500
    "Malformed response from origin trials API".  The creation endpoint
    answers a key error of its own upstream call with the same 500, so on
    neither endpoint does a malformed response become a 400 or a normal
    return. *)
Theorem upstream_failure_answers_500
    kwargs w n body w' fid gid feature :
  parsed_continuity_id kwargs = Some n →
  passes_validation env body w' fid gid feature →
  (verify_continuity_issue env n = inr RequestException →
     (do_get env kwargs w).1
     = inr (HTTPException 500 "Error obtaining origin trial data from API"))
  ∧ (verify_continuity_issue env n = inr KeyError →
     (do_get env kwargs w).1
     = inr (HTTPException 500 "Malformed response from origin trials API"))
  ∧ (create_launch_issue env fid gid (continuity_id feature) = inr KeyError →
     (do_post env body w').1
     = inr (HTTPException 500 "Malformed response from origin trials API")).
Proof.
  intros Hn Hv.
  rewrite (do_get_parsed _ _ _ Hn), (do_post_validated _ _ _ _ _ Hv).
  repeat split; intros ->; reflexivity.
Qed.


(** X1: an argument that is already an integer is converted as it is,
    unless it is 0, which [not continuity_id_arg] takes for an absent
    one. *)
Lemma do_get_integer_argument kwargs w z :
  kwargs !! "continuity_id" = Some (PyInt z) →
  do_get env kwargs w =
    if z =? 0
    then (inr (HTTPException 400 "No continuity ID specified."), w)
    else
      (match verify_continuity_issue env z with
       | inl resp => inl (from_dict env resp)
       | inr e =>
           inr (match upstream_error_message e with
                | Some m => HTTPException 500 m
                | None => e
                end)
       end,
       record (VerifyContinuityIssue z) w).
Proof.
  intros Harg. step_handler. rewrite Harg. simpl.
  destruct (z =? 0); simpl; [reflexivity|].
  destruct (verify_continuity_issue env z) as [resp|[]]; reflexivity.
Qed.

(** ** The creation endpoint *)

(** A request passes validation exactly when no check of the sequence
    fails. *)
Lemma validation_passes_iff body w :
  first_failure (validation_sequence env body w) = None
  ↔ ∃ fid gid feature, passes_validation env body w fid gid feature.
Proof.
  unfold passes_validation, validation_sequence. destruct body as [fv gv].
  split.
  - destruct fv as [|fb|fz|fs], gv as [|gb|gz|gs]; simpl;
      try discriminate;
      repeat
        match goal with
        | |- context [features w !! ?n] =>
            destruct (features w !! n) as [feature|] eqn:?; simpl
        | |- context [launch_issue_id ?f] =>
            destruct (launch_issue_id f) eqn:?; simpl
        | |- context [validate_feature_edit_permission env ?n] =>
            destruct (validate_feature_edit_permission env n) eqn:?; simpl
        | |- context [bool_decide (?n ∈ gates w)] =>
            destruct (bool_decide_reflect (n ∈ gates w)); simpl
        end;
      try discriminate; intros _; eauto 10.
  - intros (fid & gid & feature & Hf & Hl & Hn & Hp & Hg & Hin).
    destruct fv as [|fb|fz|fs], gv as [|gb|gz|gs]; simpl in *;
      try discriminate;
      injection Hf as <-; injection Hg as <-;
      rewrite Hl; simpl; rewrite Hn, Hp; simpl;
      rewrite bool_decide_eq_true_2 by done; reflexivity.
Qed.

(** C2: the handler answers with the status and message of the first check
    of the validation sequence that fails, whatever the later checks would
    say; it has then consulted the collaborators of that check and of the
    checks before it, in their order, and nothing else, and the datastore is
    as it was.  In particular a missing feature, or one that already has an
    issue, is reported before the permission check is made. *)
Theorem do_post_validation_order body w passed failed :
  first_failure (validation_sequence env body w) = Some (passed, failed) →
  do_post env body w =
    (inr (HTTPException (status failed) (msg failed)),
     {| features := features w;
        gates := gates w;
        log := log w ++ concat (consults <$> passed ++ [failed]) |}).
Proof.
  destruct body as [fv gv], w as [fs gs l].
  unfold validation_sequence. step_handler.
  destruct fv as [|fb|fz|ft]; simpl;
    try (intros [= <- <-]; simpl; rewrite ?app_nil_r; reflexivity);
    match goal with
    | |- context [fs !! ?n] => destruct (fs !! n) as [feature|]; simpl
    end;
    try (intros [= <- <-]; simpl; reflexivity);
    destruct (launch_issue_id feature); simpl;
    try (intros [= <- <-]; simpl; reflexivity);
    match goal with
    | |- context [validate_feature_edit_permission env ?n] =>
        destruct (validate_feature_edit_permission env n); simpl
    end;
    try (intros [= <- <-]; simpl; rewrite <- ?app_assoc; reflexivity);
    destruct gv as [|gb|gz|gt]; simpl;
    try (intros [= <- <-]; simpl; rewrite <- ?app_assoc; reflexivity);
    match goal with
    | |- context [bool_decide (?n ∈ gs)] =>
        destruct (bool_decide_reflect (n ∈ gs)) as [Hin|Hin]; simpl
    end;
    try discriminate;
    rewrite (decide_False (P := _ ∈ gs)) by done; simpl;
    intros [= <- <-]; simpl; rewrite <- ?app_assoc; reflexivity.
Qed.

(** C4: when the feature the request names exists and already has a launch
    issue, the handler answers 400 whatever the gate id is; all it has done
    is look the feature up, so the origin trials client is not called,
    nothing is written, and the feature keeps the issue it had. *)
Theorem do_post_existing_issue body w fid feature issue :
  int_value (feature_id body) = Some fid →
  features w !! fid = Some feature →
  launch_issue_id feature = Some issue →
  do_post env body w =
    (inr (HTTPException 400 "Feature already has a security review issue."),
     record (FeatureGet fid) w)
  ∧ features (do_post env body w).2 !! fid = Some feature.
Proof.
  intros Hf Hl Hi. destruct (int_value_Some _ _ Hf) as [F1 F2].
  assert (do_post env body w =
    (inr (HTTPException 400 "Feature already has a security review issue."),
     record (FeatureGet fid) w)) as ->.
  { step_handler. rewrite F1, F2, Hf. simpl. rewrite Hl. simpl.
    rewrite Hi. reflexivity. }
  split; [reflexivity | exact Hl].
Qed.

(** C5: when the feature exists and has no launch issue but the permission
    check hands back a redirect, the handler answers 403 after the feature
    lookup and the permission check alone: the origin trials client is not
    called and nothing is written. *)
Theorem do_post_forbidden body w fid feature redirect :
  int_value (feature_id body) = Some fid →
  features w !! fid = Some feature →
  launch_issue_id feature = None →
  validate_feature_edit_permission env fid = Some redirect →
  do_post env body w =
    (inr (HTTPException 403
            "User does not have permission to edit this feature."),
     {| features := features w;
        gates := gates w;
        log := log w ++ [FeatureGet fid; PermissionCheck fid] |}).
Proof.
  intros Hf Hl Hn Hp. destruct (int_value_Some _ _ Hf) as [F1 F2].
  step_handler. rewrite F1, F2, Hf. simpl. rewrite Hl. simpl.
  rewrite Hn, Hp. simpl. rewrite <- app_assoc. reflexivity.
Qed.

(** The entity a well-formed datastore holds under [fid] is written back
    under [fid]. *)
Lemma after_put_lookup w fid gid feature issue :
  datastore_wf w →
  features w !! fid = Some feature →
  features (after_put w fid gid feature issue) !! fid
  = Some (set_launch_issue_id (Some issue) feature).
Proof.
  intros Hwf Hl. simpl. rewrite (Hwf _ _ Hl). apply lookup_insert_eq.
Qed.

(** C1: when a validated request's upstream call returns an issue id
    together with a non-empty failure reason, the issue id is written to
    the feature first (the put is the last entry of the log) and the
    request then fails with 500 and exactly that reason; the world the
    handler leaves behind still holds the write: the feature stored under
    the requested id has [launch_issue_id = Some issue]. *)
Theorem do_post_partial_success body w fid gid feature issue reason :
  datastore_wf w →
  passes_validation env body w fid gid feature →
  create_launch_issue env fid gid (continuity_id feature)
  = inl (Some issue, Some reason) →
  reason ≠ "" →
  do_post env body w =
    (inr (HTTPException 500 reason), after_put w fid gid feature issue)
  ∧ features (do_post env body w).2 !! fid
    = Some (set_launch_issue_id (Some issue) feature)
  ∧ last (log (do_post env body w).2)
    = Some (FeaturePut (set_launch_issue_id (Some issue) feature))
  ∧ (launch_issue_id <$> features (do_post env body w).2 !! fid)
    = Some (Some issue)
  ∧ ∃ written,
      last (log (do_post env body w).2) = Some (FeaturePut written)
      ∧ key_id written = fid
      ∧ launch_issue_id written = Some issue.
Proof.
  intros Hwf Hv Hc Hr.
  rewrite (do_post_validated _ _ _ _ _ Hv), Hc.
  cbv zeta. rewrite (truthy_text _ Hr). cbn [fst snd].
  destruct Hv as (_ & Hl & _).
  pose proof (after_put_lookup w fid gid feature issue Hwf Hl) as Hput.
  assert (last (log (after_put w fid gid feature issue))
          = Some (FeaturePut (set_launch_issue_id (Some issue) feature)))
    as Hlast.
  { unfold after_put. cbn [log]. rewrite last_app. reflexivity. }
  split; [reflexivity|]. split; [exact Hput|]. split; [exact Hlast|].
  split; [by rewrite Hput|].
  eexists. split; [exact Hlast|]. split; [|reflexivity].
  exact (Hwf _ _ Hl).
Qed.

(** C3: when a validated request's upstream call returns an issue id and
    no failure reason, the handler writes the issue id to the feature, so
    that the feature stored under the requested id has
    [launch_issue_id = Some issue] and is otherwise as it was, and returns
    the message "Security review issue <issue id> created". *)
Theorem do_post_success body w fid gid feature issue :
  datastore_wf w →
  passes_validation env body w fid gid feature →
  create_launch_issue env fid gid (continuity_id feature)
  = inl (Some issue, None) →
  do_post env body w =
    (inl {| message :=
              "Security review issue " +:+ pretty issue +:+ " created" |},
     after_put w fid gid feature issue)
  ∧ features (do_post env body w).2 !! fid
    = Some (set_launch_issue_id (Some issue) feature)
  ∧ (launch_issue_id <$> features (do_post env body w).2 !! fid)
    = Some (Some issue)
  ∧ features (do_post env body w).2 !! fid
    = Some {| key_id := fid;
              continuity_id := continuity_id feature;
              launch_issue_id := Some issue |}.
Proof.
  intros Hwf Hv Hc.
  rewrite (do_post_validated _ _ _ _ _ Hv), Hc. cbn [fst snd].
  destruct Hv as (_ & Hl & _).
  pose proof (after_put_lookup w fid gid feature issue Hwf Hl) as Hput.
  split; [reflexivity|]. split; [exact Hput|].
  split; [by rewrite Hput|].
  rewrite Hput. unfold set_launch_issue_id. by rewrite (Hwf _ _ Hl).
Qed.

(** C9: when a validated request's upstream call raises a transport error
    or a key error, the handler answers 500 and nothing has been put: the
    datastore is as it was, and the feature still has no launch issue. *)
Theorem do_post_upstream_exception body w fid gid feature e :
  passes_validation env body w fid gid feature →
  create_launch_issue env fid gid (continuity_id feature) = inr e →
  e = RequestException ∨ e = KeyError →
  ∃ m,
    do_post env body w =
      (inr (HTTPException 500 m), after_upstream_call w fid gid feature)
    ∧ features (do_post env body w).2 = features w
    ∧ (launch_issue_id <$> features (do_post env body w).2 !! fid)
      = Some None
    ∧ ∀ f, FeaturePut f ∈ log (do_post env body w).2 → FeaturePut f ∈ log w.
Proof.
  intros Hv Hc He.
  rewrite (do_post_validated _ _ _ _ _ Hv), Hc.
  destruct Hv as (Hf & Hl & Hn & _).
  assert (∀ f l, FeaturePut f ∈ l ++ [FeatureGet fid; PermissionCheck fid;
            GateGet gid; CreateLaunchIssue fid gid (continuity_id feature)]
          → FeaturePut f ∈ l) as Hlog.
  { intros f l [H|H]%elem_of_app; [exact H|].
    repeat (apply elem_of_cons in H as [H|H]; [discriminate|]).
    by apply elem_of_nil in H. }
  destruct He as [-> | ->]; eexists; (split; [reflexivity|]); cbn [fst snd];
    (split; [reflexivity|]); (split; [simpl; by rewrite Hl, <- Hn|]);
    intros f; apply Hlog.
Qed.

(** C10: when a validated request's upstream call returns neither an
    issue id nor a failure reason, nothing is put and the feature still has
    no launch issue, yet the handler returns normally, and so with status
    200, the message "Security review issue None created". *)
Theorem do_post_nothing_created body w fid gid feature :
  passes_validation env body w fid gid feature →
  create_launch_issue env fid gid (continuity_id feature)
  = inl (None, None) →
  do_post env body w =
    (inl {| message := "Security review issue None created" |},
     after_upstream_call w fid gid feature)
  ∧ http_status (do_post env body w).1 = 200
  ∧ features (do_post env body w).2 = features w
  ∧ (launch_issue_id <$> features (do_post env body w).2 !! fid)
    = Some None.
Proof.
  intros Hv Hc.
  rewrite (do_post_validated _ _ _ _ _ Hv), Hc. cbn [fst snd].
  destruct Hv as (Hf & Hl & Hn & _).
  repeat split. simpl. by rewrite Hl, <- Hn.
Qed.

(** ** What the creation endpoint leaves of the datastore *)

(** Whatever the request, the handler leaves the features as they were or
    writes one issue id, on the feature the request names, which had none. *)
Lemma do_post_frame body w :
  features (do_post env body w).2 = features w
  ∨ ∃ fid feature issue,
      int_value (feature_id body) = Some fid
      ∧ features w !! fid = Some feature
      ∧ launch_issue_id feature = None
      ∧ features (do_post env body w).2
        = <[key_id feature := set_launch_issue_id (Some issue) feature]>
            (features w).
Proof.
  destruct (first_failure (validation_sequence env body w))
    as [[passed failed]|] eqn:Hfail.
  - left. destruct body as [fv gv]. revert Hfail.
    unfold validation_sequence. step_handler.
    destruct fv as [|fb|fz|ft]; simpl; try reflexivity;
      match goal with
      | |- context [features w !! ?n] =>
          destruct (features w !! n) as [feature|]; simpl
      end;
      try reflexivity;
      destruct (launch_issue_id feature); simpl; try reflexivity;
      match goal with
      | |- context [validate_feature_edit_permission env ?n] =>
          destruct (validate_feature_edit_permission env n); simpl
      end;
      try reflexivity;
      destruct gv as [|gb|gz|gt]; simpl; try reflexivity;
      match goal with
      | |- context [bool_decide (?n ∈ gates w)] =>
          destruct (bool_decide_reflect (n ∈ gates w)) as [Hin|Hin]; simpl
      end;
      try discriminate;
      rewrite (decide_False (P := _ ∈ gates w)) by done; reflexivity.
  - apply validation_passes_iff in Hfail as (fid & gid & feature & Hv).
    rewrite (do_post_validated _ _ _ _ _ Hv).
    destruct Hv as (Hf & Hl & Hn & _).
    destruct (create_launch_issue env fid gid (continuity_id feature))
      as [[[issue|] [reason|]]|e]; cbv zeta;
      try destruct (truthy (PyStr reason)); cbn [fst snd];
      try (left; reflexivity);
      right; exists fid, feature, issue; done.
Qed.

(** The handler keeps every entity under its own key. *)
Lemma do_post_preserves_wf body w :
  datastore_wf w → datastore_wf (do_post env body w).2.
Proof.
  intros Hwf.
  destruct (do_post_frame body w)
    as [Heq | (fid & feature & issue & _ & _ & _ & Heq)];
    unfold datastore_wf; rewrite Heq; [exact Hwf|].
  intros k f. rewrite lookup_insert. case_decide as Hk.
  - intros [= <-]. exact Hk.
  - apply Hwf.
Qed.

(** A feature that has a launch issue keeps exactly that one, whatever
    request the handler serves. *)
Lemma do_post_keeps_launch_issue body w k feature issue :
  datastore_wf w →
  features w !! k = Some feature →
  launch_issue_id feature = Some issue →
  features (do_post env body w).2 !! k = Some feature.
Proof.
  intros Hwf Hk Hi.
  destruct (do_post_frame body w)
    as [Heq | (fid & target & issue' & _ & Hl & Hn & Heq)];
    rewrite Heq; [exact Hk|].
  rewrite lookup_insert_ne; [exact Hk|].
  rewrite (Hwf _ _ Hl). intros <-. congruence.
Qed.

End Properties.

(** ** The theorems at the requests of the scenario *)

Lemma scenario_world_wf : datastore_wf Scenario.world.
Proof.
  intros k f H. unfold Scenario.world in H. simpl in H.
  apply lookup_insert_Some in H as [[<- <-]|[_ H]]; [reflexivity|].
  apply lookup_singleton_Some in H as [<- <-]. reflexivity.
Qed.

Lemma scenario_passes_validation verified created :
  passes_validation (Scenario.collaborators true verified created)
    Scenario.body Scenario.world 42 7 Scenario.feature42.
Proof.
  repeat split; by apply elem_of_singleton.
Qed.

(** [continuity_id=abc] is answered 400 "Invalid continuity ID.". *)
Lemma do_get_refuses_bad_id_witness :
  let env := Scenario.granted (inl (None, None)) in
  let kwargs : gmap string PyVal := {[ "continuity_id" := PyStr "abc" ]} in
  do_get env kwargs Scenario.world
  = (inr (HTTPException 400 "Invalid continuity ID."), Scenario.world)
  ∧ http_status (do_get env kwargs Scenario.world).1 = 400
  ∧ log (do_get env kwargs Scenario.world).2 = log Scenario.world.
Proof.
  intros env kwargs.
  apply (do_get_refuses_bad_id env kwargs Scenario.world Unparsable).
  reflexivity.
Defined.

(** [continuity_id=123] with a transport error upstream is answered 500,
    and so is a creation request whose upstream call raises a key error. *)
Lemma upstream_failure_answers_500_witness :
  let env :=
    Scenario.collaborators true (inr RequestException) (inr KeyError) in
  let kwargs : gmap string PyVal := {[ "continuity_id" := PyStr "123" ]} in
  (do_get env kwargs Scenario.world).1
  = inr (HTTPException 500 "Error obtaining origin trial data from API")
  ∧ (do_post env Scenario.body Scenario.world).1
    = inr (HTTPException 500 "Malformed response from origin trials API").
Proof.
  intros env kwargs.
  destruct (upstream_failure_answers_500 env kwargs Scenario.world 123
              Scenario.body Scenario.world 42 7 Scenario.feature42
              eq_refl (scenario_passes_validation _ _))
    as (Htransport & _ & Hmalformed).
  split; [apply Htransport | apply Hmalformed]; reflexivity.
Defined.



(** A request for a feature that does not exist, from a user who may not
    edit, is answered 404 and not 403: the third check fails first. *)
Lemma do_post_validation_order_witness :
  let env := Scenario.denied (inl (None, None)) in
  let body := {| feature_id := PyInt 99; gate_id := PyNone |} in
  ∃ passed failed,
    first_failure (validation_sequence env body Scenario.world)
    = Some (passed, failed)
    ∧ length passed = 2%nat
    ∧ do_post env body Scenario.world =
        (inr (HTTPException 404 "Feature 99 not found"),
         {| features := features Scenario.world;
            gates := gates Scenario.world;
            log := log Scenario.world ++ [FeatureGet 99] |}).
Proof.
  intros env body.
  destruct (first_failure (validation_sequence env body Scenario.world))
    as [[passed failed]|] eqn:Hfail; [|discriminate Hfail].
  exists passed, failed. split; [reflexivity|].
  pose proof (do_post_validation_order env body Scenario.world passed failed
                Hfail) as Hpost.
  injection Hfail as <- <-. split; [reflexivity|]. exact Hpost.
Defined.

(** Feature 43 already has issue 77: 400, whoever asks and whatever gate. *)
Lemma do_post_existing_issue_witness :
  let env := Scenario.granted (inl (Some 555, None)) in
  let body := {| feature_id := PyInt 43; gate_id := PyStr "no gate" |} in
  do_post env body Scenario.world =
    (inr (HTTPException 400 "Feature already has a security review issue."),
     record (FeatureGet 43) Scenario.world)
  ∧ features (do_post env body Scenario.world).2 !! 43
    = Some Scenario.feature43.
Proof.
  intros env body.
  apply (do_post_existing_issue env body Scenario.world 43
           Scenario.feature43 77); reflexivity.
Defined.

(** Feature 42, gate 7, but no permission: 403. *)
Lemma do_post_forbidden_witness :
  do_post (Scenario.denied (inl (Some 555, None))) Scenario.body
    Scenario.world =
    (inr (HTTPException 403
            "User does not have permission to edit this feature."),
     {| features := features Scenario.world;
        gates := gates Scenario.world;
        log := log Scenario.world ++ [FeatureGet 42; PermissionCheck 42] |}).
Proof.
  apply (do_post_forbidden (Scenario.denied (inl (Some 555, None)))
           Scenario.body Scenario.world 42 Scenario.feature42
           {| location := "/login" |}); reflexivity.
Defined.

(** The upstream call returns (555, "tracker quota exceeded"): feature 42
    has issue 555, and the answer is 500 "tracker quota exceeded". *)
Lemma do_post_partial_success_witness :
  let env := Scenario.granted (inl (Some 555, Some "tracker quota exceeded")) in
  do_post env Scenario.body Scenario.world =
    (inr (HTTPException 500 "tracker quota exceeded"),
     after_put Scenario.world 42 7 Scenario.feature42 555)
  ∧ features (do_post env Scenario.body Scenario.world).2 !! 42
    = Some (set_launch_issue_id (Some 555) Scenario.feature42)
  ∧ last (log (do_post env Scenario.body Scenario.world).2)
    = Some (FeaturePut (set_launch_issue_id (Some 555) Scenario.feature42))
  ∧ (launch_issue_id
       <$> features (do_post env Scenario.body Scenario.world).2 !! 42)
    = Some (Some 555)
  ∧ ∃ written,
      last (log (do_post env Scenario.body Scenario.world).2)
      = Some (FeaturePut written)
      ∧ key_id written = 42
      ∧ launch_issue_id written = Some 555.
Proof.
  intros env.
  apply (do_post_partial_success env Scenario.body Scenario.world 42 7
           Scenario.feature42 555 "tracker quota exceeded"
           scenario_world_wf (scenario_passes_validation _ _)).
  - reflexivity.
  - discriminate.
Defined.

(** The upstream call returns (555, None): feature 42 has issue 555 and the
    message is "Security review issue 555 created". *)
Lemma do_post_success_witness :
  let env := Scenario.granted (inl (Some 555, None)) in
  do_post env Scenario.body Scenario.world =
    (inl {| message :=
              "Security review issue " +:+ pretty 555 +:+ " created" |},
     after_put Scenario.world 42 7 Scenario.feature42 555)
  ∧ features (do_post env Scenario.body Scenario.world).2 !! 42
    = Some (set_launch_issue_id (Some 555) Scenario.feature42)
  ∧ (launch_issue_id
       <$> features (do_post env Scenario.body Scenario.world).2 !! 42)
    = Some (Some 555)
  ∧ features (do_post env Scenario.body Scenario.world).2 !! 42
    = Some {| key_id := 42;
              continuity_id := continuity_id Scenario.feature42;
              launch_issue_id := Some 555 |}.
Proof.
  intros env.
  apply (do_post_success env Scenario.body Scenario.world 42 7
           Scenario.feature42 555
           scenario_world_wf (scenario_passes_validation _ _)).
  reflexivity.
Defined.

(** The upstream call raises a transport error: 500, and feature 42 still
    has no launch issue. *)
Lemma do_post_upstream_exception_witness :
  let env := Scenario.granted (inr RequestException) in
  ∃ m,
    do_post env Scenario.body Scenario.world =
      (inr (HTTPException 500 m),
       after_upstream_call Scenario.world 42 7 Scenario.feature42)
    ∧ features (do_post env Scenario.body Scenario.world).2
      = features Scenario.world
    ∧ (launch_issue_id
         <$> features (do_post env Scenario.body Scenario.world).2 !! 42)
      = Some None
    ∧ ∀ f, FeaturePut f ∈ log (do_post env Scenario.body Scenario.world).2
           → FeaturePut f ∈ log Scenario.world.
Proof.
  intros env.
  apply (do_post_upstream_exception env Scenario.body Scenario.world 42 7
           Scenario.feature42 RequestException
           (scenario_passes_validation _ _)).
  - reflexivity.
  - left. reflexivity.
Defined.

(** The upstream call returns (None, None): nothing is written, and the
    message is "Security review issue None created". *)
Lemma do_post_nothing_created_witness :
  let env := Scenario.granted (inl (None, None)) in
  do_post env Scenario.body Scenario.world =
    (inl {| message := "Security review issue None created" |},
     after_upstream_call Scenario.world 42 7 Scenario.feature42)
  ∧ http_status (do_post env Scenario.body Scenario.world).1 = 200
  ∧ features (do_post env Scenario.body Scenario.world).2
    = features Scenario.world
  ∧ (launch_issue_id
       <$> features (do_post env Scenario.body Scenario.world).2 !! 42)
    = Some None.
Proof.
  intros env.
  apply (do_post_nothing_created env Scenario.body Scenario.world 42 7
           Scenario.feature42 (scenario_passes_validation _ _)).
  reflexivity.
Defined.

(** * Further properties *)


Section Further.

Context {VerifyContinuityIssueResponse : Type}.
Variable env : Collaborators VerifyContinuityIssueResponse.

Implicit Types (w : World) (body : CreateLaunchIssueRequest).
Implicit Types (kwargs : gmap string PyVal) (feature : FeatureEntry).

(** A request that fails validation is answered with 400, 403 or 404,
    after an initial part of feature lookup, permission check and gate
    lookup, and leaves the datastore as it was. *)
Lemma do_post_rejected body w passed failed :
  first_failure (validation_sequence env body w) = Some (passed, failed) →
  ∃ fid gid s m l,
    do_post env body w =
      (inr (HTTPException s m),
       {| features := features w; gates := gates w; log := log w ++ l |})
    ∧ (s = 400 ∨ s = 403 ∨ s = 404)
    ∧ l `prefix_of` [FeatureGet fid; PermissionCheck fid; GateGet gid].
Proof.
  intros Hfail.
  exists (default 0 (int_value (feature_id body))),
         (default 0 (int_value (gate_id body))).
  destruct body as [fv gv], w as [fs gs l0]. revert Hfail.
  unfold validation_sequence. step_handler.
  destruct fv as [|fb|fz|ft]; simpl;
    try (intros _; eexists _, _, []; rewrite app_nil_r;
         split; [reflexivity|]; split; [auto | apply prefix_nil]);
    match goal with
    | |- context [fs !! ?n] => destruct (fs !! n) as [feature|]; simpl
    end;
    try (intros _; eexists _, _, _; split; [reflexivity|];
         split; [auto | by repeat apply prefix_cons; apply prefix_nil]);
    destruct (launch_issue_id feature); simpl;
    try (intros _; eexists _, _, _; split; [reflexivity|];
         split; [auto | by repeat apply prefix_cons; apply prefix_nil]);
    match goal with
    | |- context [validate_feature_edit_permission env ?n] =>
        destruct (validate_feature_edit_permission env n); simpl
    end;
    try (intros _; eexists _, _, _;
         split; [rewrite <- ?app_assoc; reflexivity|];
         split; [auto | by repeat apply prefix_cons; apply prefix_nil]);
    destruct gv as [|gb|gz|gt]; simpl;
    try (intros _; eexists _, _, _;
         split; [rewrite <- ?app_assoc; reflexivity|];
         split; [auto | by repeat apply prefix_cons; apply prefix_nil]);
    match goal with
    | |- context [bool_decide (?n ∈ gs)] =>
        destruct (bool_decide_reflect (n ∈ gs)) as [Hin|Hin]; simpl
    end;
    try discriminate;
    rewrite (decide_False (P := _ ∈ gs)) by done; simpl;
    (intros _; eexists _, _, _;
     split; [rewrite <- ?app_assoc; reflexivity|];
     split; [auto | by repeat apply prefix_cons; apply prefix_nil]).
Qed.

(** The gates are never written. *)
Lemma do_post_gates body w : gates (do_post env body w).2 = gates w.
Proof.
  destruct (first_failure (validation_sequence env body w))
    as [[passed failed]|] eqn:Hfail.
  - destruct (do_post_rejected _ _ _ _ Hfail)
      as (fid & gid & s & m & l & -> & _). reflexivity.
  - apply validation_passes_iff in Hfail as (fid & gid & feature & Hv).
    rewrite (do_post_validated env _ _ _ _ _ Hv).
    destruct (create_launch_issue env fid gid (continuity_id feature))
      as [[[issue|] [reason|]]|e]; cbv zeta;
      try destruct (truthy (PyStr reason)); reflexivity.
Qed.

(** All that [do_get] can do to the world is to note one verification
    call. *)
Lemma do_get_world kwargs w :
  (do_get env kwargs w).2 = w
  ∨ ∃ n, (do_get env kwargs w).2 = record (VerifyContinuityIssue n) w.
Proof.
  destruct w as [fs gs l0]. step_handler.
  destruct (kwargs !! "continuity_id") as [[|b|z|s]|]; simpl;
    try (left; reflexivity).
  - destruct b; simpl; [|left; reflexivity].
    destruct (verify_continuity_issue env 1) as [resp|[]]; simpl;
      right; eexists; reflexivity.
  - destruct (z =? 0); simpl; [left; reflexivity|].
    destruct (verify_continuity_issue env z) as [resp|[]]; simpl;
      right; eexists; reflexivity.
  - destruct (String.eqb s ""); simpl; [left; reflexivity|].
    destruct (int_of_str s) as [n|]; simpl; [|left; reflexivity].
    destruct (verify_continuity_issue env n) as [resp|[]]; simpl;
      right; eexists; reflexivity.
Qed.

(** ** The verification endpoint, whatever the request *)

(** X2: whatever the parameters and whatever the client answers, [do_get]
    leaves the features and the gates as they were and makes at most one
    verification call. *)
Theorem do_get_leaves_datastore kwargs w :
  features (do_get env kwargs w).2 = features w
  ∧ gates (do_get env kwargs w).2 = gates w
  ∧ (log (do_get env kwargs w).2 = log w
     ∨ ∃ n, log (do_get env kwargs w).2 = log w ++ [VerifyContinuityIssue n]).
Proof.
  destruct (do_get_world kwargs w) as [->|[n ->]].
  - repeat split. by left.
  - repeat split. right. by exists n.
Qed.

(** X3: the only statuses [do_get] itself aborts with are 400 and 500; any
    other HTTP exception it ends in was raised by the verification call. *)
Theorem do_get_abort_statuses kwargs w s m :
  (do_get env kwargs w).1 = inr (HTTPException s m) →
  s = 400 ∨ s = 500
  ∨ ∃ n, verify_continuity_issue env n = inr (HTTPException s m).
Proof.
  step_handler.
  destruct (kwargs !! "continuity_id") as [[|b|z|t]|]; simpl;
    try (intros [= <- <-]; auto).
  - destruct b; simpl; [|intros [= <- <-]; auto].
    destruct (verify_continuity_issue env 1) as [resp|[]] eqn:Hv; simpl;
      intros [= <- <-]; eauto.
  - destruct (z =? 0); simpl; [intros [= <- <-]; auto|].
    destruct (verify_continuity_issue env z) as [resp|[]] eqn:Hv; simpl;
      intros [= <- <-]; eauto.
  - destruct (String.eqb t ""); simpl; [intros [= <- <-]; auto|].
    destruct (int_of_str t) as [n|]; simpl; [|intros [= <- <-]; auto].
    destruct (verify_continuity_issue env n) as [resp|[]] eqn:Hv; simpl;
      intros [= <- <-]; eauto.
Qed.

(** X4: an exception of the verification call other than a transport error
    or a key error is not caught: the handler ends in that very exception.
    In particular a [ValueError] raised by the client is not answered with
    "Invalid continuity ID.", because the call stands outside the [try]
    that guards the conversion. *)
Theorem do_get_uncaught kwargs w n e :
  parsed_continuity_id kwargs = Some n →
  verify_continuity_issue env n = inr e →
  upstream_error_message e = None →
  do_get env kwargs w = (inr e, record (VerifyContinuityIssue n) w).
Proof.
  intros Hn Hv He. rewrite (do_get_parsed env _ _ _ Hn), Hv, He. reflexivity.
Qed.

(** X5: the decimal rendering of an integer, negative, zero or positive,
    is never refused: the handler calls the client with exactly that
    integer, and answers with the client's response when there is one.
    The bound is the interpreter's default limit of 4300 digits on
    conversions between text and integers. *)
Theorem do_get_decimal_id kwargs w n :
  kwargs !! "continuity_id" = Some (PyStr (pretty n)) →
  Z.abs n < 10 ^ 4300 →
  (do_get env kwargs w).2 = record (VerifyContinuityIssue n) w
  ∧ ∀ resp, verify_continuity_issue env n = inl resp →
      (do_get env kwargs w).1 = inl (from_dict env resp).
Proof.
  intros Harg Hbound.
  assert (parsed_continuity_id kwargs = Some n) as Hn.
  { unfold parsed_continuity_id. rewrite Harg.
    by apply int_of_str_pretty. }
  rewrite (do_get_parsed env _ _ _ Hn). split; [reflexivity|].
  by intros resp ->.
Qed.

(** ** The creation endpoint, whatever the request *)

(** X6: the only statuses [do_post] itself aborts with are 400, 403, 404
    and 500; any other HTTP exception it ends in was raised by the
    upstream call. *)
Theorem do_post_abort_statuses body w s m :
  (do_post env body w).1 = inr (HTTPException s m) →
  s = 400 ∨ s = 403 ∨ s = 404 ∨ s = 500
  ∨ ∃ fid gid cid,
      create_launch_issue env fid gid cid = inr (HTTPException s m).
Proof.
  destruct (first_failure (validation_sequence env body w))
    as [[passed failed]|] eqn:Hfail.
  - destruct (do_post_rejected _ _ _ _ Hfail)
      as (fid & gid & s' & m' & l & -> & Hs & _).
    intros [= <- <-]. tauto.
  - apply validation_passes_iff in Hfail as (fid & gid & feature & Hv).
    rewrite (do_post_validated env _ _ _ _ _ Hv).
    destruct (create_launch_issue env fid gid (continuity_id feature))
      as [[[issue|] [reason|]]|e] eqn:Hc; cbv zeta;
      try destruct (truthy (PyStr reason)); cbn [fst];
      try discriminate;
      try (intros [= <- <-]; tauto).
    destruct e; cbn [upstream_error_message]; intros [= <- <-];
      [do 4 right; eauto | tauto | tauto].
Qed.

(** X7: an exception of the upstream call other than a transport error or
    a key error is not caught: [do_post] ends in that very exception, and
    nothing has been written. *)
Theorem do_post_uncaught body w fid gid feature e :
  passes_validation env body w fid gid feature →
  create_launch_issue env fid gid (continuity_id feature) = inr e →
  upstream_error_message e = None →
  do_post env body w = (inr e, after_upstream_call w fid gid feature).
Proof.
  intros Hv Hc He.
  rewrite (do_post_validated env _ _ _ _ _ Hv), Hc, He. reflexivity.
Qed.


(** X9: when the upstream call returns a failure reason and no issue id,
    the request fails with 500 and that reason, and nothing is written. *)
Theorem do_post_failure_without_issue body w fid gid feature reason :
  passes_validation env body w fid gid feature →
  create_launch_issue env fid gid (continuity_id feature)
  = inl (None, Some reason) →
  reason ≠ "" →
  do_post env body w =
    (inr (HTTPException 500 reason), after_upstream_call w fid gid feature)
  ∧ features (do_post env body w).2 = features w.
Proof.
  intros Hv Hc Hr.
  rewrite (do_post_validated env _ _ _ _ _ Hv), Hc. cbv zeta.
  rewrite (truthy_text _ Hr). split; reflexivity.
Qed.

(** X10: the collaborators are consulted in one fixed order, each at most
    once: what a request adds to the log is an initial part of feature
    lookup, permission check, gate lookup, upstream call, put.  So there is
    never a second upstream call, and never a put without an upstream call
    before it. *)
Theorem do_post_log_order body w :
  ∃ fid gid cid f l,
    log (do_post env body w).2 = log w ++ l
    ∧ l `prefix_of` [FeatureGet fid; PermissionCheck fid; GateGet gid;
                     CreateLaunchIssue fid gid cid; FeaturePut f].
Proof.
  destruct (first_failure (validation_sequence env body w))
    as [[passed failed]|] eqn:Hfail.
  - destruct (do_post_rejected _ _ _ _ Hfail)
      as (fid & gid & s & m & l & -> & _ & Hl).
    set (f := {| key_id := fid; continuity_id := None;
                 launch_issue_id := None |}).
    exists fid, gid, None, f, l. split; [reflexivity|].
    etrans; [exact Hl|].
    by exists [CreateLaunchIssue fid gid None; FeaturePut f].
  - apply validation_passes_iff in Hfail as (fid & gid & feature & Hv).
    rewrite (do_post_validated env _ _ _ _ _ Hv).
    exists fid, gid, (continuity_id feature).
    destruct (create_launch_issue env fid gid (continuity_id feature))
      as [[[issue|] [reason|]]|e]; cbv zeta;
      try destruct (truthy (PyStr reason)); cbn [snd];
      try (exists (set_launch_issue_id (Some issue) feature); eexists;
           split; [reflexivity|]; reflexivity);
      exists feature; eexists; (split; [reflexivity|]);
      by eexists [FeaturePut _].
Qed.

(** X11: the handler only ever sets [launch_issue_id]: it never touches
    the gates, never creates or deletes a feature, never changes a key or
    a [continuity_id], and never replaces an issue id that is there. *)
Theorem do_post_sets_only_launch_issue body w :
  datastore_wf w →
  gates (do_post env body w).2 = gates w
  ∧ dom (features (do_post env body w).2) = dom (features w)
  ∧ ∀ k f, features w !! k = Some f →
      ∃ f', features (do_post env body w).2 !! k = Some f'
            ∧ key_id f' = key_id f
            ∧ continuity_id f' = continuity_id f
            ∧ (launch_issue_id f' = launch_issue_id f
               ∨ launch_issue_id f = None).
Proof.
  intros Hwf. split; [apply do_post_gates|].
  destruct (do_post_frame env body w)
    as [Heq | (fid & target & issue & _ & Hl & Hn & Heq)]; rewrite Heq.
  - split; [reflexivity|]. intros k f Hk. exists f. auto.
  - rewrite (Hwf _ _ Hl). split.
    + rewrite dom_insert_L. apply elem_of_dom_2 in Hl.
      apply set_eq. intros k. rewrite elem_of_union, elem_of_singleton.
      split; [intros [->|Hk]; done | auto].
    + intros k f Hk. destruct (decide (fid = k)) as [<-|Hne].
      * rewrite lookup_insert_eq. eexists. split; [reflexivity|].
        assert (f = target) as -> by congruence. simpl. auto.
      * rewrite lookup_insert_ne by done. exists f. auto.
Qed.

(** X12: once an issue id has been recorded, also by a request that then
    failed with the upstream's failure reason, the same request again is
    refused with 400, whoever the collaborators are by then, right after
    the feature lookup. *)
Theorem do_post_retry_refused
    (env' : Collaborators VerifyContinuityIssueResponse)
    body w fid gid feature issue failed_reason :
  datastore_wf w →
  passes_validation env body w fid gid feature →
  create_launch_issue env fid gid (continuity_id feature)
  = inl (Some issue, failed_reason) →
  do_post env' body (do_post env body w).2 =
    (inr (HTTPException 400 "Feature already has a security review issue."),
     record (FeatureGet fid) (do_post env body w).2).
Proof.
  intros Hwf Hv Hc.
  assert ((do_post env body w).2 = after_put w fid gid feature issue) as ->.
  { rewrite (do_post_validated env _ _ _ _ _ Hv), Hc. cbv zeta.
    destruct failed_reason as [reason|];
      [destruct (truthy (PyStr reason))|]; reflexivity. }
  destruct Hv as (Hf & Hl & _).
  pose proof (after_put_lookup w fid gid feature issue Hwf Hl) as Hput.
  destruct (int_value_Some _ _ Hf) as [F1 F2].
  step_handler. rewrite F1, F2, Hf. simpl in Hput |- *. rewrite Hput.
  reflexivity.
Qed.

(** X13: an attempt that recorded nothing, because the upstream call
    raised or returned no issue id, leaves the request as valid as it was:
    the same request passes validation again. *)
Theorem do_post_retry_allowed body w fid gid feature :
  passes_validation env body w fid gid feature →
  (∀ issue failed_reason,
     create_launch_issue env fid gid (continuity_id feature)
     ≠ inl (Some issue, failed_reason)) →
  passes_validation env body (do_post env body w).2 fid gid feature.
Proof.
  intros Hv Hnone.
  assert (features (do_post env body w).2 = features w
          ∧ gates (do_post env body w).2 = gates w) as [Hfs Hgs].
  { rewrite (do_post_validated env _ _ _ _ _ Hv).
    destruct (create_launch_issue env fid gid (continuity_id feature))
      as [[[issue|] reason]|e] eqn:Hc; cbv zeta;
      [by destruct (Hnone issue reason)| |];
      try destruct reason as [reason|];
      try destruct (truthy (PyStr reason)); split; reflexivity. }
  unfold passes_validation in *. rewrite Hfs, Hgs. exact Hv.
Qed.

End Further.

(** ** Any sequence of requests *)

Section Sequences.

Context {VerifyContinuityIssueResponse : Type}.

Implicit Types (w : World) (feature : FeatureEntry).
Implicit Types (rs : list (@Request VerifyContinuityIssueResponse)).

(** X14: a launch issue id is final.  Once a feature has one, no sequence
    of requests to the two endpoints, by whichever users and with
    whichever answers of the origin trials client, changes that feature
    in any way. *)
Theorem launch_issue_is_final rs w k feature issue :
  datastore_wf w →
  features w !! k = Some feature →
  launch_issue_id feature = Some issue →
  features (serve_all rs w) !! k = Some feature.
Proof.
  intros Hwf Hk Hi. unfold serve_all.
  revert w Hwf Hk. induction rs as [|r rs IH]; intros w Hwf Hk; [done|].
  simpl. apply IH.
  - destruct r as [env kwargs|env body]; simpl.
    + destruct (do_get_world env kwargs w) as [->|[n ->]]; exact Hwf.
    + by apply do_post_preserves_wf.
  - destruct r as [env kwargs|env body]; simpl.
    + destruct (do_get_world env kwargs w) as [->|[n ->]]; exact Hk.
    + by apply (do_post_keeps_launch_issue env body w k feature issue).
Qed.

End Sequences.

(** ** The further properties at the requests of the scenario *)

(** The integer 0 as [continuity_id] is taken for an absent one. *)
Lemma do_get_integer_argument_witness :
  let env := Scenario.granted (inl (None, None)) in
  let kwargs : gmap string PyVal := {[ "continuity_id" := PyInt 0 ]} in
  do_get env kwargs Scenario.world
  = (inr (HTTPException 400 "No continuity ID specified."), Scenario.world).
Proof.
  intros env kwargs.
  apply (do_get_integer_argument env kwargs Scenario.world 0).
  reflexivity.
Defined.

(** [continuity_id=abc] ends in status 400. *)
Lemma do_get_abort_statuses_witness :
  let env := Scenario.granted (inl (None, None)) in
  400 = 400 ∨ 400 = 500
  ∨ ∃ n, verify_continuity_issue env n
         = inr (HTTPException 400 "Invalid continuity ID.").
Proof.
  intros env.
  apply (do_get_abort_statuses env {[ "continuity_id" := PyStr "abc" ]}
           Scenario.world 400 "Invalid continuity ID.").
  reflexivity.
Defined.

(** [continuity_id=123] with a client that raises [ValueError]: the
    handler ends in [ValueError], not in a 400. *)
Lemma do_get_uncaught_witness :
  let env := Scenario.collaborators true (inr ValueError) (inl (None, None)) in
  let kwargs : gmap string PyVal := {[ "continuity_id" := PyStr "123" ]} in
  do_get env kwargs Scenario.world
  = (inr ValueError, record (VerifyContinuityIssue 123) Scenario.world).
Proof.
  intros env kwargs.
  apply (do_get_uncaught env kwargs Scenario.world 123 ValueError);
    reflexivity.
Defined.

(** [continuity_id=-9001] is verified as -9001. *)
Lemma do_get_decimal_id_witness :
  let env := Scenario.granted (inl (None, None)) in
  let kwargs : gmap string PyVal := {[ "continuity_id" := PyStr "-9001" ]} in
  (do_get env kwargs Scenario.world).2
  = record (VerifyContinuityIssue (-9001)) Scenario.world
  ∧ ∀ resp, verify_continuity_issue env (-9001) = inl resp →
      (do_get env kwargs Scenario.world).1 = inl (from_dict env resp).
Proof.
  intros env kwargs.
  apply (do_get_decimal_id env kwargs Scenario.world (-9001)).
  - reflexivity.
  - by vm_compute.
Defined.

(** Feature 42, gate 7, but no permission: the status is 403. *)
Lemma do_post_abort_statuses_witness :
  let env := Scenario.denied (inl (Some 555, None)) in
  403 = 400 ∨ 403 = 403 ∨ 403 = 404 ∨ 403 = 500
  ∨ ∃ fid gid cid,
      create_launch_issue env fid gid cid
      = inr (HTTPException 403
               "User does not have permission to edit this feature.").
Proof.
  intros env.
  apply (do_post_abort_statuses env Scenario.body Scenario.world 403
           "User does not have permission to edit this feature.").
  reflexivity.
Defined.

(** The upstream call raises [TypeError]: the handler ends in it. *)
Lemma do_post_uncaught_witness :
  do_post (Scenario.granted (inr TypeError)) Scenario.body Scenario.world
  = (inr TypeError,
     after_upstream_call Scenario.world 42 7 Scenario.feature42).
Proof.
  apply (do_post_uncaught (Scenario.granted (inr TypeError)) Scenario.body
           Scenario.world 42 7 Scenario.feature42 TypeError
           (scenario_passes_validation _ _)); reflexivity.
Defined.


(** The upstream call returns (None, "tracker quota exceeded"): 500, and
    nothing is written. *)
Lemma do_post_failure_without_issue_witness :
  let env := Scenario.granted (inl (None, Some "tracker quota exceeded")) in
  do_post env Scenario.body Scenario.world =
    (inr (HTTPException 500 "tracker quota exceeded"),
     after_upstream_call Scenario.world 42 7 Scenario.feature42)
  ∧ features (do_post env Scenario.body Scenario.world).2
    = features Scenario.world.
Proof.
  intros env.
  apply (do_post_failure_without_issue env Scenario.body Scenario.world 42 7
           Scenario.feature42 "tracker quota exceeded"
           (scenario_passes_validation _ _)).
  - reflexivity.
  - discriminate.
Defined.

(** The successful request of the scenario leaves the gates, the keys and
    the continuity ids as they were. *)
Lemma do_post_sets_only_launch_issue_witness :
  let env := Scenario.granted (inl (Some 555, None)) in
  let w' := (do_post env Scenario.body Scenario.world).2 in
  gates w' = gates Scenario.world
  ∧ dom (features w') = dom (features Scenario.world)
  ∧ ∀ k f, features Scenario.world !! k = Some f →
      ∃ f', features w' !! k = Some f'
            ∧ key_id f' = key_id f
            ∧ continuity_id f' = continuity_id f
            ∧ (launch_issue_id f' = launch_issue_id f
               ∨ launch_issue_id f = None).
Proof.
  intros env w'.
  apply (do_post_sets_only_launch_issue env Scenario.body Scenario.world
           scenario_world_wf).
Defined.

(** The request that recorded issue 555 and then failed is refused when
    it is sent again, also for a user who may not edit. *)
Lemma do_post_retry_refused_witness :
  let env := Scenario.granted (inl (Some 555, Some "tracker quota exceeded")) in
  let env' := Scenario.denied (inl (Some 556, None)) in
  do_post env' Scenario.body (do_post env Scenario.body Scenario.world).2 =
    (inr (HTTPException 400 "Feature already has a security review issue."),
     record (FeatureGet 42) (do_post env Scenario.body Scenario.world).2).
Proof.
  intros env env'.
  apply (do_post_retry_refused env env' Scenario.body Scenario.world 42 7
           Scenario.feature42 555 (Some "tracker quota exceeded")
           scenario_world_wf (scenario_passes_validation _ _)).
  reflexivity.
Defined.

(** After a transport error the request is as valid as before. *)
Lemma do_post_retry_allowed_witness :
  let env := Scenario.granted (inr RequestException) in
  passes_validation env Scenario.body
    (do_post env Scenario.body Scenario.world).2 42 7 Scenario.feature42.
Proof.
  intros env.
  apply (do_post_retry_allowed env Scenario.body Scenario.world 42 7
           Scenario.feature42 (scenario_passes_validation _ _)).
  intros issue failed_reason. discriminate.
Defined.

(** Feature 43 keeps issue 77 through a creation request for it, a
    verification request and a successful creation for feature 42. *)
Lemma launch_issue_is_final_witness :
  let rs :=
    [ Post (Scenario.granted (inl (Some 555, None)))
        {| feature_id := PyInt 43; gate_id := PyInt 7 |};
      Get (Scenario.granted (inl (None, None)))
        {[ "continuity_id" := PyStr "123" ]};
      Post (Scenario.granted (inl (Some 556, None))) Scenario.body ] in
  features (serve_all rs Scenario.world) !! 43 = Some Scenario.feature43.
Proof.
  intros rs.
  apply (launch_issue_is_final rs Scenario.world 43 Scenario.feature43 77
           scenario_world_wf); reflexivity.
Defined.
